(** * Turdus M3rula GUI: the step orchestration core

    A shallow embedding of [turdus_m3rula_gui.py]: the project state store,
    the process runner, the step manager, the step definition table, the
    artifact callbacks and the orchestration glue of [MainWindow].

    Conventions of the embedding.
    - Python [Optional[str]] values are [option string]; truthiness is [truthy].
    - The project directory is a finite map from entry names to entries
      (regular files with a modification time and a content, directories
      with their children).  Only I/O failures that the Python library
      raises deterministically from the shape of the directory (writing to a
      directory, [mkdir] over a regular file, [shutil.move] onto an occupied
      name inside a directory) are modelled; they are the [None] results.
    - Qt signals are emitted synchronously.  Every emission of the runner is
      the last statement of the method that performs it, so a runner method
      returns its new state together with the list of signals it emitted.
      A slot connected several times is called once per connection, and
      [disconnect] removes one connection.
    - What the outside world does is an input: the exit code of a process,
      the firing of a timer, the button the operator clicks in a dialog, the
      content of the directory that is opened.
    - Widgets are kept only as far as the orchestration writes to them
      (step buttons, system log, command history, warning boxes). *)

From Stdlib Require Import Ascii String ZArith Lia.
From stdpp Require Import gmap strings list fin_maps pretty.

Local Open Scope string_scope.
Local Open Scope list_scope.
Local Open Scope stdpp_scope.

(** ** Python values *)

(** [bool(v)] for an [Optional[str]]: [None] and the empty string are falsy. *)
Definition truthy (v : option string) : bool :=
  match v with
  | Some (String _ _) => true
  | _ => false
  end.

(** [s.startswith(p)] *)
Fixpoint startswith (p s : string) : bool :=
  match p, s with
  | EmptyString, _ => true
  | String a p', String b s' => if decide (a = b) then startswith p' s' else false
  | String _ _, EmptyString => false
  end.

(** A glob pattern of [pathlib.Path.glob]: literal characters and [*]. *)
Inductive glob_tok := Star | Lit (a : ascii).

Fixpoint glob_pattern (p : string) : list glob_tok :=
  match p with
  | EmptyString => []
  | String a p' => (if decide (a = "*"%char) then Star else Lit a) :: glob_pattern p'
  end.

(** [fnmatch] of one path component against a pattern; [*] matches any run
    of characters, the empty one and a leading dot included. *)
Fixpoint glob_toks (p : list glob_tok) (s : string) {struct p} : bool :=
  match p with
  | [] => match s with EmptyString => true | _ => false end
  | Lit a :: p' =>
      match s with
      | String b s' => if decide (a = b) then glob_toks p' s' else false
      | EmptyString => false
      end
  | Star :: p' =>
      (fix skip (s : string) : bool :=
         glob_toks p' s ||
         match s with
         | String _ s' => skip s'
         | EmptyString => false
         end) s
  end.

Definition glob_match (pat name : string) : bool := glob_toks (glob_pattern pat) name.

(** ** The project directory *)

(** What a file holds.  [project.json] is kept at the level of the JSON
    document [json.dumps] writes and [json.loads] reads back, an object
    whose values are strings or [null]; any other content is [Text]. *)
Inductive content :=
| Text (s : string)
| JsonObject (d : gmap string (option string)).

Record file := File { f_mtime : Z; f_content : content }.

(** An entry of a working subdirectory: a regular file, or a nested
    directory (never looked into, only removed). *)
Inductive child := CFile (f : file) | CDir.

(** An entry of the project directory.  The modification time of a
    directory is what it was given last; changes of its children do not
    refresh it. *)
Inductive entry :=
| EFile (f : file)
| EDir (mtime : Z) (children : gmap string child).

Definition e_mtime (e : entry) : Z :=
  match e with
  | EFile f => f_mtime f
  | EDir t _ => t
  end.

(** [(root / name).exists()] *)
Definition exists_ (d : gmap string entry) (name : string) : bool :=
  bool_decide (is_Some (d !! name)).

(** [list(root.glob(pat))]: the entries of the directory, of any kind, whose
    name matches.  The operating system fixes no order for a listing; the
    model lists in the order of the map. *)
Definition glob (d : gmap string entry) (pat : string) : list (string * entry) :=
  filter (λ ne, glob_match pat ne.1 = true) (map_to_list d).

(** [max(blocks, key=lambda p: p.stat().st_mtime)]: the first entry of the
    list whose modification time is not exceeded by any other. *)
Fixpoint max_mtime (best : string * entry) (l : list (string * entry)) : string * entry :=
  match l with
  | [] => best
  | x :: l' => max_mtime (if (e_mtime best.2 <? e_mtime x.2)%Z then x else best) l'
  end.

(** [shutil.move(root/src, root/dst)] where [dst] does not exist: a rename. *)
Definition rename (src dst : string) (d : gmap string entry) : gmap string entry :=
  match d !! src with
  | Some e => <[dst := e]> (delete src d)
  | None => d
  end.

(** [(root / name).touch()]: create an empty file, or refresh the
    modification time of what is there. *)
Definition touch (now : Z) (name : string) (d : gmap string entry) : gmap string entry :=
  match d !! name with
  | None => <[name := EFile (File now (Text ""))]> d
  | Some (EFile f) => <[name := EFile (File now (f_content f))]> d
  | Some (EDir _ cs) => <[name := EDir now cs]> d
  end.

(** [(root / name).mkdir(exist_ok=True)]: [FileExistsError] when the name is
    taken by a regular file. *)
Definition mkdir (now : Z) (name : string) (d : gmap string entry) : option (gmap string entry) :=
  match d !! name with
  | None => Some (<[name := EDir now ∅]> d)
  | Some (EDir _ _) => Some d
  | Some (EFile _) => None
  end.

(** [(root / name).write_text(...)]: [IsADirectoryError] on a directory. *)
Definition write_file (now : Z) (name : string) (c : content) (d : gmap string entry)
  : option (gmap string entry) :=
  match d !! name with
  | Some (EDir _ _) => None
  | _ => Some (<[name := EFile (File now c)]> d)
  end.

(** ** ProjectState *)

Record ProjectState := {
  root_dir : option string;
  ipsw : option string;
  blob : option string;
  gen : option string;
  chip : option string
}.

(** [ProjectState.__init__] *)
Definition new_state : ProjectState :=
  {| root_dir := None; ipsw := None; blob := None; gen := None; chip := Some "A9" |}.

(** The dictionary [save] serialises. *)
Definition save_data (x : ProjectState) : gmap string (option string) :=
  <["chip" := chip x]>
  (<["gen" := gen x]>
  (<["blob" := if truthy (blob x) then blob x else None]>
  (<["ipsw" := if truthy (ipsw x) then ipsw x else None]> ∅))).

(** [ProjectState.save]; [d] is the directory [root_dir] designates. *)
Definition save (now : Z) (x : ProjectState) (d : gmap string entry)
  : option (gmap string entry) :=
  match root_dir x with
  | None => Some d
  | Some _ => write_file now "project.json" (JsonObject (save_data x)) d
  end.

(** [data.get(key)] and [data.get(key, default)] *)
Definition dict_get (data : gmap string (option string)) (key : string) : option string :=
  match data !! key with
  | Some v => v
  | None => None
  end.

Definition dict_get_default (data : gmap string (option string)) (key : string)
    (default : option string) : option string :=
  match data !! key with
  | Some v => v
  | None => default
  end.

(** [ProjectState.load]; [d] is the directory at [root].  Every field of
    [self] is overwritten, so the previous state is no argument.  Reading a
    directory or a file that is not such a JSON object raises. *)
Definition load (now : Z) (root : string) (d : gmap string entry)
  : option (ProjectState * gmap string entry) :=
  match d !! "project.json" with
  | Some (EFile f) =>
      match f_content f with
      | JsonObject data =>
          Some ({| root_dir := Some root;
                   ipsw := dict_get data "ipsw";
                   blob := dict_get data "blob";
                   gen := dict_get data "gen";
                   chip := dict_get_default data "chip" (Some "A9") |}, d)
      | Text _ => None
      end
  | Some (EDir _ _) => None
  | None =>
      let x' := {| root_dir := Some root; ipsw := None; blob := None; gen := None;
                   chip := Some "A9" |} in
      d' ← save now x' d; Some (x', d')
  end.

(** ** ProcessRunner *)

(** What the runner does to the outside: the OS process it spawns, the
    signals it emits, the timer it arms. *)
Inductive Sig :=
| ProcStart (command : string)
| OutputReceived (kind text : string)
| ProcessFinished (success : bool) (exit_code : Z)
| ChainFinished (success : bool)
| SingleShot (msec : Z).

(** [chain_conn] counts the connections of [process_finished] to
    [_on_chain_step_finished]: [connect] adds one, [disconnect] drops one. *)
Record ProcessRunner := {
  process : option string;
  is_running : bool;
  command_queue : list string;
  chain_conn : nat
}.

(** [ProcessRunner.__init__] *)
Definition new_runner : ProcessRunner :=
  {| process := None; is_running := false; command_queue := []; chain_conn := 0 |}.

Definition set_queue (q : list string) (r : ProcessRunner) : ProcessRunner :=
  {| process := process r; is_running := is_running r; command_queue := q;
     chain_conn := chain_conn r |}.

Definition set_conn (n : nat) (r : ProcessRunner) : ProcessRunner :=
  {| process := process r; is_running := is_running r;
     command_queue := command_queue r; chain_conn := n |}.

Definition set_running (b : bool) (r : ProcessRunner) : ProcessRunner :=
  {| process := process r; is_running := b; command_queue := command_queue r;
     chain_conn := chain_conn r |}.

(** [ProcessRunner.run] *)
Definition run (command : string) (r : ProcessRunner) : ProcessRunner * bool * list Sig :=
  if is_running r then (r, false, [])
  else ({| process := Some command; is_running := true;
           command_queue := command_queue r; chain_conn := chain_conn r |},
        true,
        [OutputReceived "CMD" ("$ " +:+ command); ProcStart command]).

(** [ProcessRunner.run_chain]; the result of [run] is dropped. *)
Definition run_chain (commands : list string) (r : ProcessRunner) : ProcessRunner * list Sig :=
  let r1 := set_conn (S (chain_conn r)) (set_queue commands r) in
  match commands with
  | [] => (r1, [])
  | c :: q => let '(r2, _, sigs) := run c (set_queue q r1) in (r2, sigs)
  end.

(** [ProcessRunner._on_chain_step_finished] *)
Definition on_chain_step_finished (success : bool) (exit_code : Z) (r : ProcessRunner)
  : ProcessRunner * list Sig :=
  if negb success then
    (set_conn (pred (chain_conn r)) (set_queue [] r), [ChainFinished false])
  else
    match command_queue r with
    | _ :: _ => (r, [SingleShot 100%Z])
    | [] => (set_conn (pred (chain_conn r)) r, [ChainFinished true])
    end.

(** The callback armed by [QTimer.singleShot]:
    [self.run(self.command_queue.pop(0))]; [IndexError] on an empty queue. *)
Definition chain_timer (r : ProcessRunner) : option (ProcessRunner * list Sig) :=
  match command_queue r with
  | [] => None
  | c :: q => let '(r', _, sigs) := run c (set_queue q r) in Some (r', sigs)
  end.

(** Delivery of one [process_finished] emission to the [n] connections
    of the chain handler, one call per connection.  A call drops at most one
    connection, so the handler never disconnects what is not connected. *)
Fixpoint deliver (n : nat) (success : bool) (exit_code : Z) (r : ProcessRunner)
  : ProcessRunner * list Sig :=
  match n with
  | O => (r, [])
  | S n' =>
      let '(r1, s1) := on_chain_step_finished success exit_code r in
      let '(r2, s2) := deliver n' success exit_code r1 in
      (r2, s1 ++ s2)
  end.

(** [ProcessRunner._on_finished], with the slots of the runner itself. *)
Definition on_finished (exit_code : Z) (r : ProcessRunner) : ProcessRunner * list Sig :=
  let r1 := set_running false r in
  let success := bool_decide (exit_code = 0%Z) in
  let '(r2, sigs) := deliver (chain_conn r1) success exit_code r1 in
  (r2, ProcessFinished success exit_code :: sigs).

(** *** The runner under the event loop

    The events the outside world raises on a runner: the live process
    exits, or an armed timer fires. *)
Inductive Event := EvExit (exit_code : Z) | EvTimer.

Record Loop := {
  lp_runner : ProcessRunner;
  lp_timers : nat;
  lp_trace : list Sig;
  lp_crashed : bool
}.

(** The number of timers a list of signals arms. *)
Fixpoint armed (sigs : list Sig) : nat :=
  match sigs with
  | [] => O
  | SingleShot _ :: sigs' => S (armed sigs')
  | _ :: sigs' => armed sigs'
  end.

Definition commit (l : Loop) (rs : ProcessRunner * list Sig) : Loop :=
  {| lp_runner := rs.1; lp_timers := lp_timers l + armed rs.2;
     lp_trace := lp_trace l ++ rs.2; lp_crashed := lp_crashed l |}.

Definition call_run_chain (commands : list string) (l : Loop) : Loop :=
  commit l (run_chain commands (lp_runner l)).

Definition call_run (command : string) (l : Loop) : Loop :=
  commit l (let '(r, _, sigs) := run command (lp_runner l) in (r, sigs)).

(** One event; [None] when the event cannot happen in this state (no live
    process, no armed timer, or the application is gone). *)
Definition loop_step (e : Event) (l : Loop) : option Loop :=
  if lp_crashed l then None
  else match e with
  | EvExit code =>
      if is_running (lp_runner l) then Some (commit l (on_finished code (lp_runner l)))
      else None
  | EvTimer =>
      match lp_timers l with
      | O => None
      | S n =>
          let l' := {| lp_runner := lp_runner l; lp_timers := n; lp_trace := lp_trace l;
                       lp_crashed := false |} in
          match chain_timer (lp_runner l) with
          | Some rs => Some (commit l' rs)
          | None => Some {| lp_runner := lp_runner l; lp_timers := n;
                            lp_trace := lp_trace l; lp_crashed := true |}
          end
      end
  end.

Fixpoint exec (es : list Event) (l : Loop) : option Loop :=
  match es with
  | [] => Some l
  | e :: es' => l' ← loop_step e l; exec es' l'
  end.

Definition new_loop : Loop :=
  {| lp_runner := new_runner; lp_timers := 0; lp_trace := []; lp_crashed := false |}.

(** ** Steps and the step manager *)

Inductive StepStatus := PENDING | RUNNING | SUCCESS | FAILED.

Global Instance StepStatus_eq_dec : EqDecision StepStatus.
Proof. solve_decision. Defined.

(** The behaviours a step can be bound to: the ten [step_*] methods of
    [MainWindow]. *)
Inductive StepFunc :=
| F_a9_teth_get_shc_pre
| F_a9_teth_restore
| F_a9_teth_get_shc_post
| F_a9_teth_get_pte
| F_a9_teth_boot
| F_a10_teth_restore
| F_a10_teth_boot
| F_a9_unteth_get_shc
| F_a9_unteth_restore
| F_a10_unteth_restore.

Global Instance StepFunc_eq_dec : EqDecision StepFunc.
Proof. solve_decision. Defined.

Record Step := { name : string; func : StepFunc; status : StepStatus }.

(** [Step.__init__] *)
Definition new_step (n : string) (f : StepFunc) : Step :=
  {| name := n; func := f; status := PENDING |}.

Definition set_status (s : StepStatus) (st : Step) : Step :=
  {| name := name st; func := func st; status := s |}.

Record StepManager := { steps : list Step; current_step : Z }.

(** [StepManager.__init__] *)
Definition new_step_manager : StepManager := {| steps := []; current_step := (-1)%Z |}.

(** [StepManager.set_steps] *)
Definition set_steps (l : list Step) : StepManager :=
  {| steps := set_status PENDING <$> l; current_step := (-1)%Z |}.

(** [0 <= index < len(self.steps)] *)
Definition in_range (index : Z) (m : StepManager) : bool :=
  bool_decide (0 ≤ index)%Z && bool_decide (index < Z.of_nat (length (steps m)))%Z.

(** [StepManager.start_step] without its emission; [None] when the guard
    fails and nothing is emitted. *)
Definition sm_start_step (index : Z) (m : StepManager) : option StepManager :=
  if in_range index m then
    Some {| steps := alter (set_status RUNNING) (Z.to_nat index) (steps m);
            current_step := index |}
  else None.

(** [StepManager.complete_step] without its emission. *)
Definition sm_complete_step (index : Z) (success : bool) (m : StepManager)
  : option StepManager :=
  if in_range index m then
    Some {| steps := alter (set_status (if success then SUCCESS else FAILED))
                           (Z.to_nat index) (steps m);
            current_step := current_step m |}
  else None.

(** ** Step buttons *)

Inductive Icon := IconPending | IconRunning | IconSuccess | IconFailed | IconArrow.

Record StepButton := {
  step_num : nat;
  btn_name : string;
  is_next : bool;
  icon : Icon;
  enabled : bool
}.

(** [StepButton.__init__] *)
Definition new_button (num : nat) (n : string) : StepButton :=
  {| step_num := num; btn_name := n; is_next := false; icon := IconPending;
     enabled := true |}.

Definition status_icon (s : StepStatus) : Icon :=
  match s with
  | PENDING => IconPending
  | RUNNING => IconRunning
  | SUCCESS => IconSuccess
  | FAILED => IconFailed
  end.

(** [StepButton.update_status] *)
Definition update_status (s : StepStatus) (next : bool) (b : StepButton) : StepButton :=
  {| step_num := step_num b; btn_name := btn_name b; is_next := next;
     icon := if next && bool_decide (s = PENDING) then IconArrow else status_icon s;
     enabled := enabled b |}.

Definition set_enabled (e : bool) (b : StepButton) : StepButton :=
  {| step_num := step_num b; btn_name := btn_name b; is_next := is_next b;
     icon := icon b; enabled := e |}.

(** ** The main window *)

(** The completion callbacks the step behaviours register, one constructor
    per [on_complete] closure. *)
Inductive Callback :=
| Cb_a9_teth_get_shc_pre
| Cb_a9_teth_restore
| Cb_a9_teth_get_shc_post
| Cb_a9_teth_get_pte
| Cb_a10_teth_restore
| Cb_a9_unteth_get_shc
| Cb_a9_unteth_restore
| Cb_a10_unteth_restore.

(** [pdir] is the content of the directory [root_dir] designates, [clock]
    the time the file system stamps with; [spawned] lists the OS processes
    started so far and [timers] counts the armed single-shot timers. *)
Record Win := {
  state : ProjectState;
  pdir : gmap string entry;
  clock : Z;
  runner : ProcessRunner;
  step_manager : StepManager;
  current_mode : string;
  is_executing : bool;
  current_step_callback : option Callback;
  chip_checked : string;
  step_buttons : list StepButton;
  sys_log : list string;
  warnings : list (string * string);
  cmd_history : list string;
  spawned : list string;
  timers : nat
}.

Definition set_state (x : ProjectState) (w : Win) : Win :=
  {| state := x; pdir := pdir w; clock := clock w; runner := runner w;
     step_manager := step_manager w; current_mode := current_mode w;
     is_executing := is_executing w; current_step_callback := current_step_callback w;
     chip_checked := chip_checked w; step_buttons := step_buttons w;
     sys_log := sys_log w; warnings := warnings w; cmd_history := cmd_history w;
     spawned := spawned w; timers := timers w |}.

Definition set_pdir (d : gmap string entry) (w : Win) : Win :=
  {| state := state w; pdir := d; clock := clock w; runner := runner w;
     step_manager := step_manager w; current_mode := current_mode w;
     is_executing := is_executing w; current_step_callback := current_step_callback w;
     chip_checked := chip_checked w; step_buttons := step_buttons w;
     sys_log := sys_log w; warnings := warnings w; cmd_history := cmd_history w;
     spawned := spawned w; timers := timers w |}.

Definition set_runner (r : ProcessRunner) (w : Win) : Win :=
  {| state := state w; pdir := pdir w; clock := clock w; runner := r;
     step_manager := step_manager w; current_mode := current_mode w;
     is_executing := is_executing w; current_step_callback := current_step_callback w;
     chip_checked := chip_checked w; step_buttons := step_buttons w;
     sys_log := sys_log w; warnings := warnings w; cmd_history := cmd_history w;
     spawned := spawned w; timers := timers w |}.

Definition set_step_manager (m : StepManager) (w : Win) : Win :=
  {| state := state w; pdir := pdir w; clock := clock w; runner := runner w;
     step_manager := m; current_mode := current_mode w;
     is_executing := is_executing w; current_step_callback := current_step_callback w;
     chip_checked := chip_checked w; step_buttons := step_buttons w;
     sys_log := sys_log w; warnings := warnings w; cmd_history := cmd_history w;
     spawned := spawned w; timers := timers w |}.

Definition set_mode (m : string) (w : Win) : Win :=
  {| state := state w; pdir := pdir w; clock := clock w; runner := runner w;
     step_manager := step_manager w; current_mode := m;
     is_executing := is_executing w; current_step_callback := current_step_callback w;
     chip_checked := chip_checked w; step_buttons := step_buttons w;
     sys_log := sys_log w; warnings := warnings w; cmd_history := cmd_history w;
     spawned := spawned w; timers := timers w |}.

Definition set_is_executing (b : bool) (w : Win) : Win :=
  {| state := state w; pdir := pdir w; clock := clock w; runner := runner w;
     step_manager := step_manager w; current_mode := current_mode w;
     is_executing := b; current_step_callback := current_step_callback w;
     chip_checked := chip_checked w; step_buttons := step_buttons w;
     sys_log := sys_log w; warnings := warnings w; cmd_history := cmd_history w;
     spawned := spawned w; timers := timers w |}.

Definition set_callback (c : option Callback) (w : Win) : Win :=
  {| state := state w; pdir := pdir w; clock := clock w; runner := runner w;
     step_manager := step_manager w; current_mode := current_mode w;
     is_executing := is_executing w; current_step_callback := c;
     chip_checked := chip_checked w; step_buttons := step_buttons w;
     sys_log := sys_log w; warnings := warnings w; cmd_history := cmd_history w;
     spawned := spawned w; timers := timers w |}.

Definition set_chip_checked (c : string) (w : Win) : Win :=
  {| state := state w; pdir := pdir w; clock := clock w; runner := runner w;
     step_manager := step_manager w; current_mode := current_mode w;
     is_executing := is_executing w; current_step_callback := current_step_callback w;
     chip_checked := c; step_buttons := step_buttons w;
     sys_log := sys_log w; warnings := warnings w; cmd_history := cmd_history w;
     spawned := spawned w; timers := timers w |}.

Definition set_buttons (bs : list StepButton) (w : Win) : Win :=
  {| state := state w; pdir := pdir w; clock := clock w; runner := runner w;
     step_manager := step_manager w; current_mode := current_mode w;
     is_executing := is_executing w; current_step_callback := current_step_callback w;
     chip_checked := chip_checked w; step_buttons := bs;
     sys_log := sys_log w; warnings := warnings w; cmd_history := cmd_history w;
     spawned := spawned w; timers := timers w |}.

(** [MainWindow.log_system]; the time stamp is left out. *)
Definition log_system (message : string) (w : Win) : Win :=
  {| state := state w; pdir := pdir w; clock := clock w; runner := runner w;
     step_manager := step_manager w; current_mode := current_mode w;
     is_executing := is_executing w; current_step_callback := current_step_callback w;
     chip_checked := chip_checked w; step_buttons := step_buttons w;
     sys_log := sys_log w ++ [message]; warnings := warnings w;
     cmd_history := cmd_history w; spawned := spawned w; timers := timers w |}.

(** [QMessageBox.warning(self, title, text)] *)
Definition warning (title text : string) (w : Win) : Win :=
  {| state := state w; pdir := pdir w; clock := clock w; runner := runner w;
     step_manager := step_manager w; current_mode := current_mode w;
     is_executing := is_executing w; current_step_callback := current_step_callback w;
     chip_checked := chip_checked w; step_buttons := step_buttons w;
     sys_log := sys_log w; warnings := warnings w ++ [(title, text)];
     cmd_history := cmd_history w; spawned := spawned w; timers := timers w |}.

(** The slots of the window on what the runner emits while it is called:
    [on_output] keeps the command lines in the history, a started process
    and an armed timer are recorded. *)
Definition on_sig (s : Sig) (w : Win) : Win :=
  match s with
  | OutputReceived kind text =>
      {| state := state w; pdir := pdir w; clock := clock w; runner := runner w;
         step_manager := step_manager w; current_mode := current_mode w;
         is_executing := is_executing w;
         current_step_callback := current_step_callback w;
         chip_checked := chip_checked w; step_buttons := step_buttons w;
         sys_log := sys_log w; warnings := warnings w;
         cmd_history := if decide (kind = "CMD") then cmd_history w ++ ["$ " +:+ text]
                        else cmd_history w;
         spawned := spawned w; timers := timers w |}
  | ProcStart c =>
      {| state := state w; pdir := pdir w; clock := clock w; runner := runner w;
         step_manager := step_manager w; current_mode := current_mode w;
         is_executing := is_executing w;
         current_step_callback := current_step_callback w;
         chip_checked := chip_checked w; step_buttons := step_buttons w;
         sys_log := sys_log w; warnings := warnings w; cmd_history := cmd_history w;
         spawned := spawned w ++ [c]; timers := timers w |}
  | SingleShot _ =>
      {| state := state w; pdir := pdir w; clock := clock w; runner := runner w;
         step_manager := step_manager w; current_mode := current_mode w;
         is_executing := is_executing w;
         current_step_callback := current_step_callback w;
         chip_checked := chip_checked w; step_buttons := step_buttons w;
         sys_log := sys_log w; warnings := warnings w; cmd_history := cmd_history w;
         spawned := spawned w; timers := S (timers w) |}
  | _ => w
  end.

(** [self.runner.run_chain(commands)] from the window. *)
Definition runner_run_chain (commands : list string) (w : Win) : Win :=
  let '(r, sigs) := run_chain commands (runner w) in
  foldl (λ w s, on_sig s w) (set_runner r w) sigs.

(** The index of the first pending step, [-1] when there is none. *)
Fixpoint first_pending (i : nat) (l : list Step) : Z :=
  match l with
  | [] => (-1)%Z
  | st :: l' => if decide (status st = PENDING) then Z.of_nat i else first_pending (S i) l'
  end.

(** [MainWindow.on_step_changed].  [load_steps] is the one place that
    assigns the steps and the buttons, both of one length, so [steps[i]]
    is in range for every button. *)
Definition on_step_changed (w : Win) : Win :=
  let next_step_index := first_pending 0 (steps (step_manager w)) in
  set_buttons
    (imap (λ i btn,
             match steps (step_manager w) !! i with
             | Some st => update_status (status st)
                            (bool_decide (Z.of_nat i = next_step_index)) btn
             | None => btn
             end) (step_buttons w)) w.

(** [self.step_manager.start_step(index)] with the slot of [step_changed]. *)
Definition start_step (index : Z) (w : Win) : Win :=
  match sm_start_step index (step_manager w) with
  | Some m => on_step_changed (set_step_manager m w)
  | None => w
  end.

(** [self.step_manager.complete_step(index, success)] with the slot. *)
Definition complete_step (index : Z) (success : bool) (w : Win) : Win :=
  match sm_complete_step index success (step_manager w) with
  | Some m => on_step_changed (set_step_manager m w)
  | None => w
  end.

(** [MainWindow.update_step_buttons_state] *)
Definition update_step_buttons_state (w : Win) : Win :=
  let en :=
    if decide (current_mode w = "teth") then truthy (ipsw (state w))
    else truthy (ipsw (state w)) && truthy (blob (state w)) && truthy (gen (state w)) in
  set_buttons (set_enabled en <$> step_buttons w) w.

(** The step list [load_steps] builds. *)
Definition step_table (mode : string) (chip : option string) : list Step :=
  if decide (mode = "teth") then
    if decide (chip = Some "A9") then
      [ new_step "Get SHC (pre)" F_a9_teth_get_shc_pre;
        new_step "Restore Device" F_a9_teth_restore;
        new_step "Get SHC (post)" F_a9_teth_get_shc_post;
        new_step "Get pteblock" F_a9_teth_get_pte;
        new_step "Boot Device" F_a9_teth_boot ]
    else
      [ new_step "Restore Device" F_a10_teth_restore;
        new_step "Boot Device" F_a10_teth_boot ]
  else
    if decide (chip = Some "A9") then
      [ new_step "Get SHC Block" F_a9_unteth_get_shc;
        new_step "Untethered Restore" F_a9_unteth_restore ]
    else
      [ new_step "Untethered Restore" F_a10_unteth_restore ].

(** [MainWindow.load_steps], on a constructed window. *)
Definition load_steps (w : Win) : Win :=
  let l := step_table (current_mode w) (chip (state w)) in
  let w1 := set_step_manager (set_steps l) w in
  let w2 := set_buttons (imap (λ i st, new_button (i + 1) (name st)) l) w1 in
  update_step_buttons_state w2.

(** The status a step has after its turn in the loop of [detect_progress]. *)
Definition detected (w : Win) (i : nat) (st : Step) : Step :=
  let present f := exists_ (pdir w) f in
  if decide (current_mode w = "teth") then
    if decide (chip (state w) = Some "A9") then
      if bool_decide (i = 0%nat) && present "shcblock_pre.bin" then set_status SUCCESS st
      else if bool_decide (i = 1%nat) && present "restore_done" then set_status SUCCESS st
      else if bool_decide (i = 2%nat) && present "shcblock_post.bin" then set_status SUCCESS st
      else if bool_decide (i = 3%nat) && present "pteblock.bin" then set_status SUCCESS st
      else st
    else
      if bool_decide (i = 0%nat) && present "restore_done" then set_status SUCCESS st
      else st
  else
    if decide (chip (state w) = Some "A9") then
      if bool_decide (i = 0%nat) && present "shcblock_unteth.bin" then set_status SUCCESS st
      else if bool_decide (i = 1%nat) && present "restore_done" then set_status SUCCESS st
      else st
    else
      if bool_decide (i = 0%nat) && present "restore_done" then set_status SUCCESS st
      else st.

(** The loop of [detect_progress] from index [i] on, [next_step_index]
    being what the earlier iterations left. *)
Fixpoint detect_loop (w : Win) (i : nat) (next_step_index : Z) (todo : list Step)
    (btns : list StepButton) : list Step * list StepButton :=
  match todo with
  | [] => ([], btns)
  | st :: todo' =>
      let st' := detected w i st in
      let next' :=
        if bool_decide (next_step_index = (-1)%Z) && bool_decide (status st' = PENDING)
        then Z.of_nat i else next_step_index in
      let btns' := alter (update_status (status st') (bool_decide (Z.of_nat i = next'))) i btns in
      let '(rest, btns'') := detect_loop w (S i) next' todo' btns' in
      (st' :: rest, btns'')
  end.

(** [MainWindow.detect_progress] *)
Definition detect_progress (w : Win) : Win :=
  match root_dir (state w) with
  | None => w
  | Some _ =>
      let '(l, btns) :=
        detect_loop w 0 (-1)%Z (steps (step_manager w)) (step_buttons w) in
      set_buttons btns
        (set_step_manager {| steps := l; current_step := current_step (step_manager w) |} w)
  end.

(** [MainWindow.__init__]: A9, tethered, nothing loaded. *)
Definition new_window (now : Z) : Win :=
  load_steps
    {| state := new_state; pdir := ∅; clock := now; runner := new_runner;
       step_manager := new_step_manager; current_mode := "teth";
       is_executing := false; current_step_callback := None; chip_checked := "A9";
       step_buttons := []; sys_log := []; warnings := []; cmd_history := [];
       spawned := []; timers := 0 |}.

(** ** Working subdirectories *)

(** Drop the child [n] of the subdirectory [sub]. *)
Definition remove_child (sub n : string) (d : gmap string entry) : gmap string entry :=
  match d !! sub with
  | Some (EDir t cs) => <[sub := EDir t (delete n cs)]> d
  | _ => d
  end.

(** [shutil.move(root/sub/n, root/n)] for a regular file [f]: onto a free
    name or a regular file it is a rename; into a directory of that name it
    moves below it, and raises when the name is taken there. *)
Definition move_to_root (sub n : string) (f : file) (d : gmap string entry)
  : option (gmap string entry) :=
  match d !! n with
  | Some (EDir t cs) =>
      match cs !! n with
      | Some _ => None
      | None =>
          let d1 := remove_child sub n d in
          match d1 !! n with
          | Some (EDir t1 cs1) => Some (<[n := EDir t1 (<[n := CFile f]> cs1)]> d1)
          | _ => Some d1
          end
      end
  | _ => Some (<[n := EFile f]> (remove_child sub n d))
  end.

(** The loop of [move_temp_files] over the listing of one subdirectory. *)
Fixpoint move_all (sub : string) (listing : list (string * child)) (w : Win) : option Win :=
  match listing with
  | [] => Some w
  | (n, CFile f) :: rest =>
      if startswith "." n then move_all sub rest w
      else
        d ← move_to_root sub n f (pdir w);
        move_all sub rest (log_system ("Moved from " +:+ sub +:+ "/: " +:+ n) (set_pdir d w))
  | (_, CDir) :: rest => move_all sub rest w
  end.

(** One half of [move_temp_files]: move the files of [root/sub] up, then
    [shutil.rmtree] the subdirectory. *)
Definition flatten (sub : string) (w : Win) : option Win :=
  match pdir w !! sub with
  | Some (EDir _ cs) =>
      w' ← move_all sub (map_to_list cs) w;
      Some (set_pdir (delete sub (pdir w')) w')
  | _ => Some w
  end.

(** [MainWindow.move_temp_files] *)
Definition move_temp_files (w : Win) : option Win :=
  match root_dir (state w) with
  | None => Some w
  | Some _ => w1 ← flatten "block" w; flatten "image4" w1
  end.

(** ** Step behaviours *)

(** [root / name] as a string, for an absolute [root]. *)
Definition path_join (root name : string) : string :=
  if decide (root = "/") then "/" +:+ name else root +:+ "/" +:+ name.

(** The tail every behaviour runs on a missing precondition. *)
Definition fail_missing (text : string) (w : Win) : Win :=
  set_is_executing false
    (complete_step (current_step (step_manager w)) false (warning "Missing" text w)).

(** The body shared by the [on_complete] closures that look for an
    artifact: they differ by the target, the names they skip and the
    message of the empty case.  [None] is the [TypeError] of [None / name]. *)
Definition on_complete_artifact (target : string) (skipped : list string) (nothing : string)
    (success : bool) (w : Win) : option (Win * bool) :=
  if success then
    match root_dir (state w) with
    | None => None
    | Some _ =>
        if exists_ (pdir w) target then
          Some (log_system ("Saved: " +:+ target) w, true)
        else
          let blocks :=
            filter (λ ne, ne.1 ∉ skipped) (glob (pdir w) "*.bin") in
          match blocks with
          | b :: rest =>
              let latest := max_mtime b rest in
              Some (log_system ("Renamed " +:+ latest.1 +:+ " to " +:+ target)
                      (set_pdir (rename latest.1 target (pdir w)) w), true)
          | [] => Some (log_system nothing w, false)
          end
    end
  else Some (w, success).

(** The [on_complete] closures that leave the [restore_done] marker. *)
Definition on_complete_marker (success : bool) (w : Win) : option (Win * bool) :=
  if success then
    match root_dir (state w) with
    | None => None
    | Some _ => Some (set_pdir (touch (clock w) "restore_done" (pdir w)) w, success)
    end
  else Some (w, success).

(** Calling [self.current_step_callback(success)]. *)
Definition call_callback (cb : Callback) (success : bool) (w : Win) : option (Win * bool) :=
  match cb with
  | Cb_a9_teth_get_shc_pre =>
      on_complete_artifact "shcblock_pre.bin" [] "Error: No .bin file found" success w
  | Cb_a9_teth_get_shc_post =>
      on_complete_artifact "shcblock_post.bin" ["shcblock_pre.bin"; "shcblock_post.bin"]
        "Error: No new .bin file found" success w
  | Cb_a9_teth_get_pte =>
      on_complete_artifact "pteblock.bin"
        ["shcblock_pre.bin"; "shcblock_post.bin"; "pteblock.bin"]
        "Error: No new .bin file found" success w
  | Cb_a9_unteth_get_shc =>
      on_complete_artifact "shcblock_unteth.bin" [] "Error: No .bin file found" success w
  | Cb_a9_teth_restore | Cb_a10_teth_restore | Cb_a9_unteth_restore
  | Cb_a10_unteth_restore =>
      on_complete_marker success w
  end.

Section Behaviours.

(** [str(Config.RAIN)] and [str(Config.MERULA)], fixed by where the script
    is installed. *)
Variables RAIN MERULA : string.

Definition step_a9_teth_get_shc_pre (w : Win) : Win :=
  match root_dir (state w) with
  | Some root =>
      if truthy (ipsw (state w)) then
        let cmd1 := RAIN +:+ " -D" in
        let cmd2 := "cd '" +:+ root +:+ "' && " +:+ MERULA +:+ " --get-shcblock '"
                    +:+ default "" (ipsw (state w)) +:+ "'" in
        runner_run_chain [cmd1; cmd2] (set_callback (Some Cb_a9_teth_get_shc_pre) w)
      else fail_missing "Need IPSW and project" w
  | None => fail_missing "Need IPSW and project" w
  end.

Definition step_a9_teth_restore (w : Win) : Win :=
  match root_dir (state w) with
  | Some root =>
      if truthy (ipsw (state w)) then
        let shc_pre := path_join root "shcblock_pre.bin" in
        if exists_ (pdir w) "shcblock_pre.bin" then
          let cmd1 := RAIN +:+ " -D" in
          let cmd2 := "cd '" +:+ root +:+ "' && " +:+ MERULA +:+ " -o --load-shcblock '"
                      +:+ shc_pre +:+ "' '" +:+ default "" (ipsw (state w)) +:+ "'" in
          runner_run_chain [cmd1; cmd2] (set_callback (Some Cb_a9_teth_restore) w)
        else fail_missing "Need shcblock_pre.bin" w
      else fail_missing "Need IPSW and project" w
  | None => fail_missing "Need IPSW and project" w
  end.

Definition step_a9_teth_get_shc_post (w : Win) : Win :=
  match root_dir (state w) with
  | Some root =>
      let cmd := "cd '" +:+ root +:+ "' && " +:+ RAIN +:+ " -g" in
      runner_run_chain [cmd] (set_callback (Some Cb_a9_teth_get_shc_post) w)
  | None => fail_missing "Need project" w
  end.

Definition step_a9_teth_get_pte (w : Win) : Win :=
  match root_dir (state w) with
  | Some root =>
      let shc_post := path_join root "shcblock_post.bin" in
      if exists_ (pdir w) "shcblock_post.bin" then
        match glob (pdir w) "*signed-SEP.img4" with
        | sep :: _ =>
            let cmd := "cd '" +:+ root +:+ "' && " +:+ RAIN +:+ " -g -i '"
                       +:+ path_join root sep.1 +:+ "' -C '" +:+ shc_post +:+ "'" in
            runner_run_chain [cmd] (set_callback (Some Cb_a9_teth_get_pte) w)
        | [] => fail_missing "No signed-SEP.img4 file in project directory" w
        end
      else fail_missing "Need shcblock_post.bin" w
  | None => fail_missing "Need project" w
  end.

Definition step_a9_teth_boot (w : Win) : Win :=
  match root_dir (state w) with
  | Some root =>
      let pte := path_join root "pteblock.bin" in
      if exists_ (pdir w) "pteblock.bin" then
        let cmd := RAIN +:+ " -TP '" +:+ pte +:+ "'" in
        runner_run_chain [cmd] w
      else fail_missing "Need pteblock.bin" w
  | None => fail_missing "Need project" w
  end.

Definition step_a10_teth_restore (w : Win) : Win :=
  match root_dir (state w) with
  | Some root =>
      if truthy (ipsw (state w)) then
        let cmd1 := RAIN +:+ " -D" in
        let cmd2 := "cd '" +:+ root +:+ "' && " +:+ MERULA +:+ " -o '"
                    +:+ default "" (ipsw (state w)) +:+ "'" in
        runner_run_chain [cmd1; cmd2] (set_callback (Some Cb_a10_teth_restore) w)
      else fail_missing "Need IPSW and project" w
  | None => fail_missing "Need IPSW and project" w
  end.

Definition step_a10_teth_boot (w : Win) : Win :=
  match root_dir (state w) with
  | Some root =>
      match glob (pdir w) "*iBoot*.img4", glob (pdir w) "*signed-SEP.img4",
            glob (pdir w) "*target-SEP.im4p" with
      | iboot :: _, sep_signed :: _, sep_target :: _ =>
          let cmd := RAIN +:+ " -t '" +:+ path_join root iboot.1 +:+ "' -i '"
                     +:+ path_join root sep_signed.1 +:+ "' -p '"
                     +:+ path_join root sep_target.1 +:+ "'" in
          runner_run_chain [cmd] w
      | _, _, _ => fail_missing "Need iBoot.img4, signed-SEP.img4, target-SEP.im4p" w
      end
  | None => fail_missing "Need project" w
  end.

Definition step_a9_unteth_get_shc (w : Win) : Win :=
  match root_dir (state w) with
  | Some root =>
      if truthy (ipsw (state w)) then
        let cmd1 := RAIN +:+ " -D" in
        let cmd2 := "cd '" +:+ root +:+ "' && " +:+ MERULA +:+ " --get-shcblock '"
                    +:+ default "" (ipsw (state w)) +:+ "'" in
        runner_run_chain [cmd1; cmd2] (set_callback (Some Cb_a9_unteth_get_shc) w)
      else fail_missing "Need IPSW and project" w
  | None => fail_missing "Need IPSW and project" w
  end.

Definition step_a9_unteth_restore (w : Win) : Win :=
  match root_dir (state w) with
  | Some root =>
      if truthy (ipsw (state w)) && truthy (blob (state w)) && truthy (gen (state w)) then
        let shc_block := path_join root "shcblock_unteth.bin" in
        if exists_ (pdir w) "shcblock_unteth.bin" then
          let w1 := log_system "Note: A9 may fail, retry if needed" w in
          let cmd1 := RAIN +:+ " -Db " +:+ default "" (gen (state w)) in
          let cmd2 := "cd '" +:+ root +:+ "' && " +:+ MERULA +:+ " -w --load-shsh '"
                      +:+ default "" (blob (state w)) +:+ "' --load-shcblock '"
                      +:+ shc_block +:+ "' '" +:+ default "" (ipsw (state w)) +:+ "'" in
          runner_run_chain [cmd1; cmd2] (set_callback (Some Cb_a9_unteth_restore) w1)
        else fail_missing "Need shcblock_unteth.bin" w
      else fail_missing "Need IPSW/Blob/Gen/Project" w
  | None => fail_missing "Need IPSW/Blob/Gen/Project" w
  end.

Definition step_a10_unteth_restore (w : Win) : Win :=
  match root_dir (state w) with
  | Some root =>
      if truthy (ipsw (state w)) && truthy (blob (state w)) && truthy (gen (state w)) then
        let cmd1 := RAIN +:+ " -Db " +:+ default "" (gen (state w)) in
        let cmd2 := "cd '" +:+ root +:+ "' && " +:+ MERULA +:+ " -w --load-shsh '"
                    +:+ default "" (blob (state w)) +:+ "' '"
                    +:+ default "" (ipsw (state w)) +:+ "'" in
        runner_run_chain [cmd1; cmd2] (set_callback (Some Cb_a10_unteth_restore) w)
      else fail_missing "Need IPSW/Blob/Gen/Project" w
  | None => fail_missing "Need IPSW/Blob/Gen/Project" w
  end.

(** How a call of [step.func()] ends. *)
Inductive outcome := Returned (w : Win) | Raised (w : Win) (message : string).

(** [step.func()].  The behaviours only query the directory and hand a
    chain to the runner: none of them raises. *)
Definition call_func (f : StepFunc) (w : Win) : outcome :=
  Returned
    match f with
    | F_a9_teth_get_shc_pre => step_a9_teth_get_shc_pre w
    | F_a9_teth_restore => step_a9_teth_restore w
    | F_a9_teth_get_shc_post => step_a9_teth_get_shc_post w
    | F_a9_teth_get_pte => step_a9_teth_get_pte w
    | F_a9_teth_boot => step_a9_teth_boot w
    | F_a10_teth_restore => step_a10_teth_restore w
    | F_a10_teth_boot => step_a10_teth_boot w
    | F_a9_unteth_get_shc => step_a9_unteth_get_shc w
    | F_a9_unteth_restore => step_a9_unteth_restore w
    | F_a10_unteth_restore => step_a10_unteth_restore w
    end.

(** The two [mkdir] of [execute_step]. *)
Definition make_workdirs (w : Win) : option Win :=
  match root_dir (state w) with
  | None => Some w
  | Some _ =>
      d1 ← mkdir (clock w) "block" (pdir w);
      d2 ← mkdir (clock w) "image4" d1;
      Some (set_pdir d2 w)
  end.

(** [MainWindow.execute_step]; [None] is the [FileExistsError] of a
    [mkdir], raised outside the [try].  The callers (step buttons, the
    result dialog) pass an index of the step list or the one past its end,
    never a negative one. *)
Definition execute_step (index : nat) (w : Win) : option Win :=
  match steps (step_manager w) !! index with
  | None => Some w
  | Some step =>
      let w1 := start_step (Z.of_nat index) w in
      let w2 := log_system ("Step " +:+ pretty (index + 1)%nat +:+ ": " +:+ name step) w1 in
      let w3 := set_is_executing true w2 in
      w4 ← make_workdirs w3;
      match call_func (func step) w4 with
      | Returned w5 => Some w5
      | Raised w5 e =>
          Some (set_is_executing false
                  (complete_step (Z.of_nat index) false (log_system ("Error: " +:+ e) w5)))
      end
  end.

(** The button the operator clicks in the result dialog. *)
Inductive Choice := ClickNext | ClickRetry | ClickClose.

(** [MainWindow.show_step_result_dialog] *)
Definition show_step_result_dialog (success : bool) (clicked : Choice) (w : Win)
  : option Win :=
  let current_idx := current_step (step_manager w) in
  if negb (in_range current_idx (step_manager w)) then Some w
  else
    let is_last_step :=
      bool_decide (current_idx = Z.of_nat (length (steps (step_manager w))) - 1)%Z in
    if success then
      match clicked with
      | ClickNext =>
          if is_last_step then Some (log_system "User chose: Close" w)
          else
            let w1 := log_system "User chose: Next Step" w in
            let next_idx := (current_idx + 1)%Z in
            if bool_decide (next_idx < Z.of_nat (length (steps (step_manager w))))%Z
            then execute_step (Z.to_nat next_idx) w1
            else Some (log_system "All steps completed!" w1)
      | _ => Some (log_system "User chose: Close" w)
      end
    else
      match clicked with
      | ClickRetry =>
          let w1 := log_system "User chose: Retry (Please re-enter DFU mode)" w in
          execute_step (Z.to_nat current_idx) w1
      | _ => Some (log_system "User chose: Close" w)
      end.

(** [MainWindow.on_command_chain_finished] up to the result dialog. *)
Definition chain_finished_core (success : bool) (w : Win) : option Win :=
  let w1 := set_is_executing false w in
  w2 ← move_temp_files w1;
  let current_idx := current_step (step_manager w2) in
  if bool_decide (0 ≤ current_idx)%Z then
    match current_step_callback w2 with
    | Some cb =>
        '(w3, final_success) ← call_callback cb success w2;
        Some (set_callback None (complete_step current_idx final_success w3))
    | None => Some (complete_step current_idx success w2)
    end
  else Some w2.

(** [MainWindow.on_command_chain_finished] *)
Definition on_command_chain_finished (success : bool) (clicked : Choice) (w : Win)
  : option Win :=
  w' ← chain_finished_core success w;
  show_step_result_dialog success clicked w'.

End Behaviours.

(** ** Generator extraction *)

Definition LF : ascii := "010"%char.
Definition CR : ascii := "013"%char.

(** [pat in s] *)
Fixpoint contains (pat s : string) : bool :=
  startswith pat s ||
  match s with
  | String _ s' => contains pat s'
  | EmptyString => false
  end.

(** The lines of a text, as [grep] reads them: [cur] is the line being
    read; a final line needs no newline. *)
Fixpoint split_lines (cur s : string) : list string :=
  match s with
  | EmptyString => match cur with EmptyString => [] | _ => [cur] end
  | String c s' =>
      if decide (c = LF) then cur :: split_lines "" s'
      else split_lines (cur +:+ String c "") s'
  end.

(** The loop of [grep -A 1 pat]: a matching line is printed, and so is the
    line after it; [--] separates two groups that are not adjacent.
    [context] tells that the line before matched, [printed] that something
    was printed already, [adjacent] that the line before was printed. *)
Fixpoint grep_A1_loop (pat : string) (context printed adjacent : bool) (lines : list string)
  : list string :=
  match lines with
  | [] => []
  | l :: rest =>
      if contains pat l then
        (if printed && negb adjacent then ["--"] else [])
          ++ l :: grep_A1_loop pat true true true rest
      else if context then l :: grep_A1_loop pat false true true rest
      else grep_A1_loop pat false printed false rest
  end.

(** The standard output of [cat blob | grep -A 1 'generator']. *)
Definition grep_A1 (pat text : string) : string :=
  foldr (λ l out, l +:+ String LF out) "" (grep_A1_loop pat false false false (split_lines "" text)).

(** [text=True]: carriage returns read as newlines. *)
Fixpoint universal_newlines (s : string) : string :=
  match s with
  | EmptyString => EmptyString
  | String c s' =>
      if decide (c = CR) then
        match s' with
        | String c' s'' => if decide (c' = LF) then universal_newlines s'
                           else String LF (universal_newlines s')
        | EmptyString => String LF EmptyString
        end
      else String c (universal_newlines s')
  end.

(** The lazy group [(.+?)] followed by the closing tag: [acc] is what the
    group has taken, at least one character; [.] refuses a newline. *)
Fixpoint lazy_group (acc s : string) : option string :=
  if startswith "</string>" s then Some acc
  else match s with
       | String c s' => if decide (c = LF) then None else lazy_group (acc +:+ String c "") s'
       | EmptyString => None
       end.

(** [s] without its first [n] characters. *)
Fixpoint drop_chars (n : nat) (s : string) : string :=
  match n, s with
  | S n', String _ s' => drop_chars n' s'
  | _, _ => s
  end.

(** A match of [<string>(.+?)</string>] that starts at the head of [s]. *)
Definition match_here (s : string) : option string :=
  if startswith "<string>" s then
    match drop_chars 8 s with
    | String c s' => if decide (c = LF) then None else lazy_group (String c "") s'
    | EmptyString => None
    end
  else None.

(** [re.search(r'<string>(.+?)</string>', s)], its group 1: the leftmost
    position at which a match starts. *)
Fixpoint re_search (s : string) : option string :=
  match match_here s with
  | Some g => Some g
  | None => match s with
            | String _ s' => re_search s'
            | EmptyString => None
            end
  end.

(** [MainWindow.extract_generator] on the text of the blob file; [None] is
    a blob that cannot be read or decoded. *)
Definition extract_generator (blob_text : option string) : string :=
  match blob_text with
  | None => "UNKNOWN"
  | Some text =>
      match re_search (universal_newlines (grep_A1 "generator" text)) with
      | Some g => g
      | None => "UNKNOWN"
      end
  end.


(** ** Opening a project, switching chip and mode *)

Definition set_chip (c : option string) (x : ProjectState) : ProjectState :=
  {| root_dir := root_dir x; ipsw := ipsw x; blob := blob x; gen := gen x; chip := c |}.

(** [MainWindow.on_chip_changed] *)
Definition on_chip_changed (c : string) (w : Win) : option Win :=
  let x := set_chip (Some c) (state w) in
  d ← save (clock w) x (pdir w);
  Some (load_steps (set_pdir d (set_state x w))).

(** [MainWindow.on_mode_changed] *)
Definition on_mode_changed (mode : string) (w : Win) : Win :=
  load_steps (set_mode mode w).

(** [btn.setChecked(True)] on the radio button of chip [c]: [toggled] is
    emitted, and [on_chip_changed] runs, only when the button was not the
    checked one. *)
Definition check_chip (c : string) (w : Win) : option Win :=
  if decide (chip_checked w = c) then Some w
  else on_chip_changed c (set_chip_checked c w).

(** [MainWindow.load_project]; [d] is the content of the directory opened. *)
Definition load_project (project_dir : string) (d : gmap string entry) (w : Win)
  : option Win :=
  let is_new_project := negb (exists_ d "project.json") in
  '(x, d') ← load (clock w) project_dir d;
  let w1 := set_pdir d' (set_state x w) in
  let w2 := log_system ((if is_new_project then "Created new project: "
                         else "Loaded existing project: ") +:+ project_dir) w1 in
  w3 ← (if decide (chip x = Some "A9") then check_chip "A9" w2
        else if decide (chip x = Some "A10") then check_chip "A10" w2
        else Some w2);
  Some (update_step_buttons_state (detect_progress w3)).

(** ** Process exit and timers, as the window sees them *)

Section Events.

Variables RAIN MERULA : string.

(** [MainWindow.on_process_finished] *)
Definition on_process_finished (success : bool) (exit_code : Z) (w : Win) : Win :=
  log_system ("Process " +:+ (if success then "OK" else "FAIL") +:+ " (code: "
              +:+ pretty exit_code +:+ ")") w.

(** The chain handler called once per connection, each emission of the
    handler going to the slot of the window at once; [clicks] are the
    buttons the operator clicks in the dialogs that come up, [Close] when
    the list is used up. *)
Fixpoint chain_slots (n : nat) (success : bool) (exit_code : Z) (clicks : list Choice)
    (w : Win) : option Win :=
  match n with
  | O => Some w
  | S n' =>
      let '(r, sigs) := on_chain_step_finished success exit_code (runner w) in
      let w1 := set_runner r w in
      match sigs with
      | [ChainFinished b] =>
          w2 ← on_command_chain_finished RAIN MERULA b (default ClickClose (head clicks)) w1;
          chain_slots n' success exit_code (tail clicks) w2
      | _ => chain_slots n' success exit_code clicks (foldl (λ w s, on_sig s w) w1 sigs)
      end
  end.

(** [ProcessRunner._on_finished] with the slots of the window: the live
    process has exited with [exit_code]. *)
Definition process_exited (exit_code : Z) (clicks : list Choice) (w : Win) : option Win :=
  let w1 := set_runner (set_running false (runner w)) w in
  let success := bool_decide (exit_code = 0%Z) in
  let w2 := on_process_finished success exit_code w1 in
  chain_slots (chain_conn (runner w2)) success exit_code clicks w2.

(** An armed timer fires; [None] is the [IndexError] of its callback. *)
Definition timer_fired (w : Win) : option Win :=
  '(r, sigs) ← chain_timer (runner w);
  Some (foldl (λ w s, on_sig s w) (set_runner r w) sigs).

End Events.

(** * Vocabulary of the properties *)

(** A runner at rest: no live process, the chain handler not connected,
    no timer armed, the application alive. *)
Definition idle (l : Loop) : Prop :=
  is_running (lp_runner l) = false ∧ chain_conn (lp_runner l) = 0 ∧
  lp_timers l = 0 ∧ lp_crashed l = false.

(** The part of a trace that tells which processes ran and how they and
    the chain ended. *)
Fixpoint observe (tr : list Sig) : list Sig :=
  match tr with
  | [] => []
  | OutputReceived _ _ :: tr' => observe tr'
  | SingleShot _ :: tr' => observe tr'
  | s :: tr' => s :: observe tr'
  end.

(** What is observed of commands that ran to a successful exit, in order. *)
Fixpoint passed (cmds : list string) : list Sig :=
  match cmds with
  | [] => []
  | c :: cmds' => ProcStart c :: ProcessFinished true 0%Z :: passed cmds'
  end.

(** What may be observed of the chain [cmds]: its first [k] commands each
    started and exited with code 0, in the order of the chain, and then
    - nothing more, a timer being armed for command [k];
    - command [k] started and still running;
    - command [k] started and failed, which ended the chain;
    - or, all commands being through, the successful end of the chain. *)
Inductive chain_obs (cmds : list string) : list Sig → Prop :=
| obs_settling k :
    (0 < k < length cmds)%nat → chain_obs cmds (passed (take k cmds))
| obs_running k c :
    cmds !! k = Some c → chain_obs cmds (passed (take k cmds) ++ [ProcStart c])
| obs_failed k c code :
    cmds !! k = Some c → code ≠ 0%Z →
    chain_obs cmds (passed (take k cmds) ++
                    [ProcStart c; ProcessFinished false code; ChainFinished false])
| obs_done :
    cmds ≠ [] → chain_obs cmds (passed cmds ++ [ChainFinished true])
| obs_empty :
    cmds = [] → chain_obs cmds [].

(** The states a chain started on an idle runner goes through; [tr] is
    what was emitted since the chain was started. *)
Inductive chain_inv (cmds : list string) (tr : list Sig) (l : Loop) : Prop :=
| inv_settling k :
    (0 < k < length cmds)%nat →
    is_running (lp_runner l) = false → command_queue (lp_runner l) = drop k cmds →
    chain_conn (lp_runner l) = 1 → lp_timers l = 1 → lp_crashed l = false →
    observe tr = passed (take k cmds) → chain_inv cmds tr l
| inv_running k c :
    cmds !! k = Some c →
    is_running (lp_runner l) = true → command_queue (lp_runner l) = drop (S k) cmds →
    chain_conn (lp_runner l) = 1 → lp_timers l = 0 → lp_crashed l = false →
    observe tr = passed (take k cmds) ++ [ProcStart c] → chain_inv cmds tr l
| inv_failed k c code :
    cmds !! k = Some c → code ≠ 0%Z →
    is_running (lp_runner l) = false → command_queue (lp_runner l) = [] →
    lp_timers l = 0 → lp_crashed l = false →
    observe tr = passed (take k cmds) ++
                 [ProcStart c; ProcessFinished false code; ChainFinished false] →
    chain_inv cmds tr l
| inv_done :
    cmds ≠ [] →
    is_running (lp_runner l) = false → command_queue (lp_runner l) = [] →
    lp_timers l = 0 → lp_crashed l = false →
    observe tr = passed cmds ++ [ChainFinished true] → chain_inv cmds tr l
| inv_empty :
    cmds = [] →
    is_running (lp_runner l) = false → lp_timers l = 0 → lp_crashed l = false →
    observe tr = [] → chain_inv cmds tr l.

(** The canonical artifact of a callback (column "on success produces" of
    the pipeline table); the marker callbacks have none. *)
Definition canonical_target (cb : Callback) : option string :=
  match cb with
  | Cb_a9_teth_get_shc_pre => Some "shcblock_pre.bin"
  | Cb_a9_teth_get_shc_post => Some "shcblock_post.bin"
  | Cb_a9_teth_get_pte => Some "pteblock.bin"
  | Cb_a9_unteth_get_shc => Some "shcblock_unteth.bin"
  | _ => None
  end.

(** Some entry of the directory matches the glob pattern. *)
Definition has_entry (d : gmap string entry) (pat : string) : bool :=
  match glob d pat with
  | [] => false
  | _ :: _ => true
  end.

(** The name is taken by a regular file. *)
Definition is_file (d : gmap string entry) (n : string) : bool :=
  match d !! n with
  | Some (EFile _) => true
  | _ => false
  end.

(** The preconditions of the step behaviours as the pipeline table of the
    specification lists them, on top of an open project. *)
Definition precondition_met (f : StepFunc) (w : Win) : bool :=
  bool_decide (is_Some (root_dir (state w))) &&
  match f with
  | F_a9_teth_get_shc_pre => truthy (ipsw (state w))
  | F_a9_teth_restore => exists_ (pdir w) "shcblock_pre.bin"
  | F_a9_teth_get_shc_post => true
  | F_a9_teth_get_pte =>
      exists_ (pdir w) "shcblock_post.bin" && has_entry (pdir w) "*signed-SEP.img4"
  | F_a9_teth_boot => exists_ (pdir w) "pteblock.bin"
  | F_a10_teth_restore => truthy (ipsw (state w))
  | F_a10_teth_boot =>
      has_entry (pdir w) "*iBoot*.img4" && has_entry (pdir w) "*signed-SEP.img4"
      && has_entry (pdir w) "*target-SEP.im4p"
  | F_a9_unteth_get_shc => truthy (ipsw (state w))
  | F_a9_unteth_restore =>
      exists_ (pdir w) "shcblock_unteth.bin" && truthy (blob (state w))
      && truthy (gen (state w))
  | F_a10_unteth_restore =>
      truthy (ipsw (state w)) && truthy (blob (state w)) && truthy (gen (state w))
  end.

(** The statuses of the steps, in order. *)
Definition statuses (w : Win) : list StepStatus := status <$> steps (step_manager w).

(** The two ways a behaviour ends: the fail-fast tail, or a chain handed
    to the runner after the callback was registered and, for one step, a
    note logged. *)
Inductive behaved (w : Win) : Win → Prop :=
| behaved_missing text : behaved w (fail_missing text w)
| behaved_chain cmds w0 :
    runner w0 = runner w → step_manager w0 = step_manager w →
    spawned w0 = spawned w → warnings w0 = warnings w →
    is_executing w0 = is_executing w →
    behaved w (runner_run_chain cmds w0).

(** The name is taken by a directory. *)
Definition is_dir (d : gmap string entry) (n : string) : bool :=
  match d !! n with
  | Some (EDir _ _) => true
  | _ => false
  end.




(** ** Concrete scenarios *)

Definition chain_ab_end : Loop :=
  default new_loop (exec [EvExit 0%Z; EvTimer; EvExit 0%Z] (call_run_chain ["a"; "b"] new_loop)).

Definition chain_ab_failed : Loop :=
  default new_loop (exec [EvExit 2%Z] (call_run_chain ["a"; "b"] new_loop)).


Definition project_a : gmap string entry :=
  {[ "project.json" :=
       EFile (File 0%Z (JsonObject
         (save_data {| root_dir := Some "/a"; ipsw := Some "/fw.ipsw"; blob := None;
                       gen := None; chip := Some "A9" |}))) ]}.

(** A project with a firmware image selected, opened in a new window. *)
Definition opened : Win :=
  default (new_window 0%Z) (load_project "/a" project_a (new_window 0%Z)).

(** The first step of the pipeline was started: its first command runs. *)
Definition busy_window : Win :=
  default opened (execute_step "turdusra1n" "turdus_merula" 0 opened).

(** The third step was clicked meanwhile. *)
Definition busy_twice : Win :=
  default busy_window (execute_step "turdusra1n" "turdus_merula" 2 busy_window).

(** The first command of step 1 wrote into the working subdirectories. *)
Definition tool_output : Win :=
  set_pdir
    (<["block" := EDir 1%Z (<["out.bin" := CFile (File 5%Z (Text "shc"))]>
                            (<[".DS_Store" := CFile (File 4%Z (Text "ds"))]> ∅))]>
     (<["image4" := EDir 1%Z (<["sep.img4" := CFile (File 6%Z (Text "sep"))]> ∅)]>
      (pdir busy_window)))
    busy_window.


(** * Properties *)

(** ** Sanity checks of the model on concrete inputs *)
Example glob_bin : glob_match "*.bin" "shcblock_pre.bin" = true ∧
                   glob_match "*.bin" ".bin" = true ∧
                   glob_match "*iBoot*.img4" "x.iBoot.y.img4" = true ∧
                   glob_match "*iBoot*.img4" "iBoot.img" = false.
Proof. vm_compute. done. Qed.

Example save_load_example :
  (d ← save 5%Z {| root_dir := Some "/p"; ipsw := Some "a.ipsw"; blob := None;
                  gen := None; chip := Some "A10" |} ∅;
   load 6%Z "/p" d) ≫= (λ r, Some (ipsw r.1, chip r.1))
  = Some (Some "a.ipsw", Some "A10").
Proof. vm_compute. done. Qed.

Example chain_two_ok :
  lp_trace <$> exec [EvExit 0%Z; EvTimer; EvExit 0%Z] (call_run_chain ["a"; "b"] new_loop)
  = Some [OutputReceived "CMD" "$ a"; ProcStart "a"; ProcessFinished true 0%Z; SingleShot 100%Z;
          OutputReceived "CMD" "$ b"; ProcStart "b"; ProcessFinished true 0%Z;
          ChainFinished true].
Proof. vm_compute. done. Qed.

Example grep_demo :
  grep_A1 "b" (String.concat (String LF "") ["a"; "b1"; "c"; "d"; "e"; "b2"; "b3"; "f"; "g"])
  = String.concat (String LF "") ["b1"; "c"; "--"; "b2"; "b3"; "f"; ""].
Proof. vm_compute. done. Qed.

Example extract_demo :
  extract_generator (Some "<key>generator</key><string>0x1111222233334444</string>")
  = "0x1111222233334444".
Proof. vm_compute. done. Qed.


Example extract_demo_edges :
  extract_generator (Some ("<key>generator</key>" +:+ String LF (String LF
                           ("<string>0x11</string>" +:+ String LF "")))) = "UNKNOWN" ∧
  extract_generator (Some ("<key>generator</key>" +:+ String CR
                           ("<string>0x11</string>" +:+ String LF ""))) = "0x11" ∧
  extract_generator (Some ("<key>generator</key><string>ab" +:+ String CR
                           ("cd</string>" +:+ String LF ""))) = "UNKNOWN" ∧
  extract_generator (Some "<key>generator</key><string></string>x</string>")
    = "</string>x".
Proof. vm_compute. done. Qed.

(** Step 1 of the A9 tethered pipeline run to its end: both commands exit
    with code 0, the tool output is renamed to the canonical artifact. *)
Example step_one_succeeds :
  (w1 ← process_exited "turdusra1n" "turdus_merula" 0%Z [] tool_output;
   w2 ← timer_fired w1;
   w3 ← process_exited "turdusra1n" "turdus_merula" 0%Z [ClickClose] w2;
   Some (statuses w3, spawned w3, is_file (pdir w3) "shcblock_pre.bin",
         is_file (pdir w3) "sep.img4", is_dir (pdir w3) "block", is_executing w3,
         sys_log w3))
  = Some ([SUCCESS; PENDING; PENDING; PENDING; PENDING],
          ["turdusra1n -D"; "cd '/a' && turdus_merula --get-shcblock '/fw.ipsw'"],
          true, true, false, false,
          ["Loaded existing project: /a"; "Step 1: Get SHC (pre)";
           "Process OK (code: 0)"; "Process OK (code: 0)";
           "Moved from block/: out.bin"; "Moved from image4/: sep.img4";
           "Renamed out.bin to shcblock_pre.bin"; "User chose: Close"]).
Proof. vm_compute. done. Qed.

(** ** The step definition table *)

(** C3.  [load_steps] installs the table of the current mode and chip, and
    the table has, for the four chip and mode pairs, the pipelines of the
    specification in their order: five steps for A9 tethered, two for A10
    tethered, two for A9 untethered, one for A10 untethered. *)
Theorem load_steps_pipelines :
  (∀ w, steps (step_manager (load_steps w))
        = step_table (current_mode w) (chip (state w))) ∧
  func <$> step_table "teth" (Some "A9")
    = [F_a9_teth_get_shc_pre; F_a9_teth_restore; F_a9_teth_get_shc_post;
       F_a9_teth_get_pte; F_a9_teth_boot] ∧
  func <$> step_table "teth" (Some "A10") = [F_a10_teth_restore; F_a10_teth_boot] ∧
  func <$> step_table "unteth" (Some "A9") = [F_a9_unteth_get_shc; F_a9_unteth_restore] ∧
  func <$> step_table "unteth" (Some "A10") = [F_a10_unteth_restore].
Proof.
  split; [|by vm_compute].
  intros w. unfold load_steps, update_step_buttons_state, step_table. simpl.
  repeat case_decide; reflexivity.
Qed.

(** ** Persistence of the project state *)

Lemma save_data_lookups x :
  save_data x !! "ipsw" = Some (if truthy (ipsw x) then ipsw x else None) ∧
  save_data x !! "blob" = Some (if truthy (blob x) then blob x else None) ∧
  save_data x !! "gen" = Some (gen x) ∧
  save_data x !! "chip" = Some (chip x).
Proof.
  unfold save_data. repeat split.
Qed.

Lemma truthy_keep (v : option string) :
  v ≠ Some "" → (if truthy v then v else None) = v.
Proof. destruct v as [[|a s]|]; simpl; congruence. Qed.

(** What [load] reads back from what [save] wrote, whatever the fields. *)
Lemma load_save now now' r x d d' :
  root_dir x = Some r →
  save now x d = Some d' →
  load now' r d'
  = Some ({| root_dir := Some r;
             ipsw := if truthy (ipsw x) then ipsw x else None;
             blob := if truthy (blob x) then blob x else None;
             gen := gen x; chip := chip x |}, d').
Proof.
  intros Hr Hs. unfold save in Hs. rewrite Hr in Hs. unfold write_file in Hs.
  assert (d' = <["project.json" := EFile (File now (JsonObject (save_data x)))]> d) as ->.
  { destruct (d !! "project.json") as [[f|t cs]|]; congruence. }
  unfold load. rewrite lookup_insert_eq. simpl.
  unfold dict_get, dict_get_default.
  destruct (save_data_lookups x) as (-> & -> & -> & ->). reflexivity.
Qed.

(** C6, as amended.  For a project state with a root directory whose
    [ipsw] and [blob] are unset or non-empty, and a directory in which
    [project.json] is not a directory, [save] succeeds and [load] on the
    same directory gives back the same state, unset fields as unset. *)
Theorem save_load_roundtrip now now' r x d :
  root_dir x = Some r →
  ipsw x ≠ Some "" →
  blob x ≠ Some "" →
  is_dir d "project.json" = false →
  ∃ d', save now x d = Some d' ∧ load now' r d' = Some (x, d').
Proof.
  intros Hr Hi Hb Hd.
  assert (∃ d', save now x d = Some d') as [d' Hs].
  { unfold save, write_file. rewrite Hr.
    unfold is_dir in Hd.
    destruct (d !! "project.json") as [[f|t cs]|] eqn:E; eauto. done. }
  exists d'. split; [done|].
  rewrite (load_save now now' r x d d' Hr Hs).
  rewrite !truthy_keep by done. destruct x; simpl in *. by subst.
Qed.

Lemma save_load_roundtrip_witness :
  ∃ d', save 1%Z {| root_dir := Some "/p"; ipsw := Some "/fw.ipsw"; blob := None;
                    gen := None; chip := Some "A10" |} ∅ = Some d' ∧
        load 2%Z "/p" d'
        = Some ({| root_dir := Some "/p"; ipsw := Some "/fw.ipsw"; blob := None;
                   gen := None; chip := Some "A10" |}, d').
Proof.
  apply (save_load_roundtrip 1%Z 2%Z "/p"
           {| root_dir := Some "/p"; ipsw := Some "/fw.ipsw"; blob := None;
              gen := None; chip := Some "A10" |} ∅); simpl; try done.
Defined.

(** C6 fails as stated: an [ipsw] that is the empty string is written as
    [null] and comes back unset. *)
Lemma save_load_empty_string :
  (d ← save 1%Z {| root_dir := Some "/p"; ipsw := Some ""; blob := None;
                    gen := None; chip := Some "A9" |} ∅;
   r ← load 2%Z "/p" d; Some (ipsw r.1))
  = Some None.
Proof. vm_compute. reflexivity. Qed.

(** ** Generator extraction *)




















(** ** The runner on an empty chain *)

(** C10.  [run_chain([])] starts no process and emits nothing, neither
    the success nor the failure of a chain, yet it connects the chain
    handler once more.  After it, on a runner that was idle, the next
    command started with [run] has its exit reported as the end of a chain,
    with the success of that command. *)
Theorem run_chain_empty_connects (l : Loop) (c : string) (code : Z) :
  (lp_trace (call_run_chain [] l) = lp_trace l ∧
   is_running (lp_runner (call_run_chain [] l)) = is_running (lp_runner l) ∧
   command_queue (lp_runner (call_run_chain [] l)) = [] ∧
   chain_conn (lp_runner (call_run_chain [] l)) = S (chain_conn (lp_runner l))) ∧
  (idle l →
   lp_trace <$> exec [EvExit code] (call_run c (call_run_chain [] l))
   = Some (lp_trace l ++
           [OutputReceived "CMD" ("$ " +:+ c); ProcStart c;
            ProcessFinished (bool_decide (code = 0%Z)) code;
            ChainFinished (bool_decide (code = 0%Z))])).
Proof.
  split.
  { unfold call_run_chain, commit; simpl. by rewrite app_nil_r. }
  intros (Hr & Hc & Ht & Hx). destruct l as [[p run q n] t tr x]; simpl in *; subst.
  unfold call_run_chain, call_run, commit; simpl.
  rewrite app_nil_r.
  unfold on_finished; simpl. unfold on_chain_step_finished.
  destruct (bool_decide (code = 0%Z)); simpl; by rewrite <- app_assoc.
Qed.

Lemma run_chain_empty_connects_witness :
  lp_trace <$> exec [EvExit 1%Z] (call_run "x" (call_run_chain [] new_loop))
  = Some [OutputReceived "CMD" "$ x"; ProcStart "x"; ProcessFinished false 1%Z;
          ChainFinished false].
Proof.
  apply (proj2 (run_chain_empty_connects new_loop "x" 1%Z)).
  repeat split.
Defined.

(** ** The artifact callbacks *)

(** C5.  When the canonical target of a step already exists in the project
    directory, the completion callback of that step, called for a chain that
    succeeded, leaves the directory as it is and reports success; all it
    does is write a line to the system log.  (Called for a chain that
    failed, the callback does nothing at all and hands the failure on.) *)
Theorem artifact_callback_idempotent (w : Win) (cb : Callback) (target r : string) :
  canonical_target cb = Some target →
  root_dir (state w) = Some r →
  exists_ (pdir w) target = true →
  call_callback cb true w = Some (log_system ("Saved: " +:+ target) w, true) ∧
  pdir (log_system ("Saved: " +:+ target) w) = pdir w ∧
  call_callback cb false w = Some (w, false).
Proof.
  intros Ht Hr He. split; [|split; [done|]].
  - destruct cb; simpl in Ht; try discriminate; injection Ht as <-;
      simpl; unfold on_complete_artifact; by rewrite Hr, He.
  - by destruct cb.
Qed.

Lemma artifact_callback_idempotent_witness :
  let w := set_pdir {[ "shcblock_post.bin" := EFile (File 3%Z (Text "")) ]}
             (set_state {| root_dir := Some "/p"; ipsw := None; blob := None;
                           gen := None; chip := Some "A9" |} (new_window 0%Z)) in
  call_callback Cb_a9_teth_get_shc_post true w
    = Some (log_system "Saved: shcblock_post.bin" w, true) ∧
  pdir (log_system "Saved: shcblock_post.bin" w) = pdir w ∧
  call_callback Cb_a9_teth_get_shc_post false w = Some (w, false).
Proof.
  intros w.
  apply (artifact_callback_idempotent w Cb_a9_teth_get_shc_post "shcblock_post.bin" "/p");
    by vm_compute.
Defined.


(** ** Progress detection *)




(** ** Chains on the runner *)

Lemma observe_app (a b : list Sig) : observe (a ++ b) = observe a ++ observe b.
Proof.
  induction a as [|s a IH]; [done|].
  destruct s; simpl; by rewrite IH.
Qed.

Lemma passed_snoc (l : list string) (c : string) :
  passed (l ++ [c]) = passed l ++ [ProcStart c; ProcessFinished true 0%Z].
Proof. induction l as [|x l IH]; simpl; [done|by rewrite IH]. Qed.

Lemma chain_inv_obs cmds tr l :
  chain_inv cmds tr l → chain_obs cmds (observe tr) ∧ lp_crashed l = false.
Proof.
  intros [k ? ? ? ? ? ? Ho|k c ? ? ? ? ? ? Ho|k c code ? ? ? ? ? ? Ho|? ? ? ? ? Ho|? ? ? ? Ho];
    rewrite Ho; split; try done.
  - by apply obs_settling.
  - by apply obs_running.
  - by apply obs_failed.
  - by apply obs_done.
  - by apply obs_empty.
Qed.

Lemma chain_inv_start cmds l0 :
  idle l0 →
  ∃ tr, lp_trace (call_run_chain cmds l0) = lp_trace l0 ++ tr ∧
        chain_inv cmds tr (call_run_chain cmds l0).
Proof.
  intros (Hr & Hc & Ht & Hx). destruct l0 as [[p rn q n] t tr0 x]; simpl in *; subst.
  destruct cmds as [|c cmds].
  - exists []. split; [done|]. by apply inv_empty.
  - exists [OutputReceived "CMD" ("$ " +:+ c); ProcStart c]. split; [done|].
    by apply (inv_running _ _ _ 0 c).
Qed.

Lemma chain_inv_step cmds tr l e l' :
  chain_inv cmds tr l → loop_step e l = Some l' →
  ∃ tr', lp_trace l' = lp_trace l ++ tr' ∧ chain_inv cmds (tr ++ tr') l'.
Proof.
  destruct l as [[p rn q n] t tr0 x].
  intros [k Hk Hr Hq Hc Ht Hx Ho|k c Hk Hr Hq Hc Ht Hx Ho
         |k c code Hk Hcode Hr Hq Ht Hx Ho|Hne Hr Hq Ht Hx Ho|He Hr Ht Hx Ho] Hs;
    simpl in *; subst; destruct e as [code'|]; simpl in Hs; try discriminate.
  - (* a timer fires while settling: command k starts *)
    destruct (lookup_lt_is_Some_2 cmds k) as [c Hc]; [lia|].
    rewrite (drop_S _ _ _ Hc) in Hs. simpl in Hs. injection Hs as <-.
    eexists. split; [reflexivity|].
    apply (inv_running _ _ _ k c); simpl; try done.
    by rewrite observe_app, Ho.
  - (* the running command exits *)
    injection Hs as <-. unfold on_finished, commit; simpl.
    unfold on_chain_step_finished; simpl.
    destruct (bool_decide_reflect (code' = 0%Z)) as [->|Hcode]; simpl.
    + destruct (drop (S k) cmds) as [|c' rest] eqn:Hd; simpl.
      * eexists. split; [reflexivity|].
        assert (length cmds ≤ S k)%nat as Hlen.
        { apply (f_equal length) in Hd. rewrite length_drop in Hd. simpl in Hd. lia. }
        apply inv_done; simpl; try done.
        { intros ->. by rewrite lookup_nil in Hk. }
        rewrite observe_app, Ho. simpl. rewrite <- (take_ge cmds (S k)) at 2 by done.
        rewrite (take_S_r _ _ _ Hk), passed_snoc. by rewrite <- !app_assoc.
      * eexists. split; [reflexivity|].
        assert (S k < length cmds)%nat as Hlen.
        { apply (f_equal length) in Hd. rewrite length_drop in Hd. simpl in Hd. lia. }
        apply (inv_settling _ _ _ (S k)); simpl; try done; [lia|].
        rewrite observe_app, Ho. simpl.
        rewrite (take_S_r _ _ _ Hk), passed_snoc. by rewrite <- app_assoc.
    + eexists. split; [reflexivity|].
      apply (inv_failed _ _ _ k c code'); simpl; try done.
      rewrite observe_app, Ho. simpl. by rewrite <- app_assoc.
Qed.

Lemma chain_inv_exec cmds es : ∀ tr l l',
  chain_inv cmds tr l → exec es l = Some l' →
  ∃ tr', lp_trace l' = lp_trace l ++ tr' ∧ chain_inv cmds (tr ++ tr') l'.
Proof.
  induction es as [|e es IH]; intros tr l l' Hi He; simpl in He.
  - injection He as <-. exists []. rewrite !app_nil_r. done.
  - destruct (loop_step e l) as [l1|] eqn:Hs; [|done]. simpl in He.
    destruct (chain_inv_step _ _ _ _ _ Hi Hs) as (tr1 & Ht1 & Hi1).
    destruct (IH _ _ _ Hi1 He) as (tr2 & Ht2 & Hi2).
    exists (tr1 ++ tr2). rewrite Ht2, Ht1, <- !app_assoc. split; [done|].
    by rewrite <- app_assoc in Hi2.
Qed.

(** Nothing can happen once a chain has failed. *)
Lemma chain_failed_stuck l e :
  is_running (lp_runner l) = false → lp_timers l = 0 → loop_step e l = None.
Proof.
  intros Hr Ht. unfold loop_step. destruct (lp_crashed l); [done|].
  destruct e; [by rewrite Hr|by rewrite Ht].
Qed.

(** C1, as amended.  For a chain started with [run_chain] on an idle
    runner (no live process, chain handler not connected, no timer armed),
    whatever exits and timer firings follow: the commands start in the order
    of the chain, each one after the exit of the one before it was observed
    with code 0, and nothing breaks.  In a chain of two commands whose first
    command exits with another code, the second command never starts, the
    failure of the chain is emitted, the queue is empty and nothing can
    happen any more. *)
Theorem chain_order (l0 : Loop) :
  idle l0 →
  (∀ cmds es l,
     exec es (call_run_chain cmds l0) = Some l →
     ∃ tr, lp_trace l = lp_trace l0 ++ tr ∧ chain_obs cmds (observe tr) ∧
           lp_crashed l = false) ∧
  (∀ c1 c2 code es l,
     code ≠ 0%Z →
     exec (EvExit code :: es) (call_run_chain [c1; c2] l0) = Some l →
     es = [] ∧
     command_queue (lp_runner l) = [] ∧ is_running (lp_runner l) = false ∧
     ∃ tr, lp_trace l = lp_trace l0 ++ tr ∧
           observe tr = [ProcStart c1; ProcessFinished false code; ChainFinished false]).
Proof.
  intros Hidle. split.
  - intros cmds es l He.
    destruct (chain_inv_start cmds l0 Hidle) as (tr & Ht & Hi).
    destruct (chain_inv_exec _ _ _ _ _ Hi He) as (tr' & Ht' & Hi').
    exists (tr ++ tr'). rewrite Ht', Ht, <- app_assoc. split; [done|].
    by apply chain_inv_obs.
  - intros c1 c2 code es l Hcode He.
    destruct Hidle as (Hr & Hc & Ht & Hx).
    destruct l0 as [[p rn q n] t tr0 x]; simpl in *; subst.
    simpl in He. unfold on_finished in He. simpl in He.
    rewrite (bool_decide_eq_false_2 _ Hcode) in He.
    unfold commit, call_run_chain in He. simpl in He.
    destruct es as [|e es].
    + injection He as <-. simpl. repeat split.
      eexists. split; [rewrite <- app_assoc; reflexivity|]. done.
    + simpl in He. rewrite chain_failed_stuck in He; done.
Qed.

Lemma new_loop_idle : idle new_loop.
Proof. by repeat split. Qed.

Lemma chain_order_witness :
  (∃ tr, lp_trace chain_ab_end = lp_trace new_loop ++ tr ∧
         chain_obs ["a"; "b"] (observe tr) ∧ lp_crashed chain_ab_end = false) ∧
  ([] = @nil Event ∧
   command_queue (lp_runner chain_ab_failed) = [] ∧
   is_running (lp_runner chain_ab_failed) = false ∧
   ∃ tr, lp_trace chain_ab_failed = lp_trace new_loop ++ tr ∧
         observe tr = [ProcStart "a"; ProcessFinished false 2%Z; ChainFinished false]).
Proof.
  split.
  - apply (proj1 (chain_order new_loop new_loop_idle) ["a"; "b"]
             [EvExit 0%Z; EvTimer; EvExit 0%Z] chain_ab_end).
    reflexivity.
  - apply (proj2 (chain_order new_loop new_loop_idle) "a" "b" 2%Z [] chain_ab_failed).
    + discriminate.
    + reflexivity.
Defined.

(** Every start of a command in such an observation comes first or right
    after the start of a command and its exit with code 0. *)
Lemma chain_obs_start cmds obs pre c post :
  chain_obs cmds obs → obs = pre ++ ProcStart c :: post →
  pre = [] ∨ ∃ pre' c', pre = pre' ++ [ProcStart c'; ProcessFinished true 0%Z].
Proof.
  intros Hobs.
  assert (∃ done_ tail_, obs = passed done_ ++ tail_ ∧
            ∀ x t, tail_ = x :: t → ∀ y, ProcStart y ∉ t) as (dn & tl & -> & Htl).
  { destruct Hobs as [k ?|k c0 ?|k c0 code ? ?|?|?].
    - exists (take k cmds), []. rewrite app_nil_r. split; [done|]. intros; discriminate.
    - eexists _, _. split; [done|]. intros x t [= <- <-] y Hy. by apply elem_of_nil in Hy.
    - eexists _, _. split; [done|]. intros x t [= <- <-] y Hy.
      apply elem_of_cons in Hy as [Hy|Hy]; [done|].
      apply list_elem_of_singleton in Hy. done.
    - eexists _, _. split; [done|]. intros x t [= <- <-] y Hy. by apply elem_of_nil in Hy.
    - exists [], []. split; [done|]. intros; discriminate. }
  clear Hobs. revert pre. induction dn as [|d dn IH]; intros pre Heq; simpl in Heq.
  - destruct pre as [|x pre]; [by left|]. exfalso.
    destruct tl as [|x' t]; [done|]. injection Heq as -> Heq.
    apply (Htl _ _ eq_refl c). rewrite Heq. apply elem_of_app. right. apply list_elem_of_here.
  - destruct pre as [|x pre]; [by left|]. right.
    injection Heq as <- Heq.
    destruct pre as [|x pre]; [done|]. injection Heq as <- Heq.
    destruct (IH pre Heq) as [->|(pre' & c' & ->)].
    + by exists [], d.
    + by exists (ProcStart d :: ProcessFinished true 0%Z :: pre'), c'.
Qed.

(** C1 fails as stated: [run_chain] does not look at the runner being
    busy.  A chain [c; d] handed over while command [a] of an earlier chain
    runs loses [c] (the [run] that should start it returns [False]), and
    once [a] has exited with code 0 the timer starts [d]: the second
    command of the chain runs although the first one never ran. *)
Lemma chain_on_busy_runner :
  let busy := call_run_chain ["a"; "b"] new_loop in
  (λ l, drop (length (lp_trace busy)) (lp_trace l))
    <$> exec [EvExit 0%Z; EvTimer] (call_run_chain ["c"; "d"] busy)
  = Some [ProcessFinished true 0%Z; SingleShot 100%Z; SingleShot 100%Z;
          OutputReceived "CMD" "$ d"; ProcStart "d"] ∧
  ¬ chain_obs ["c"; "d"] [ProcessFinished true 0%Z; ProcStart "d"].
Proof.
  split; [by vm_compute|].
  intros H. inversion H as [k Hk Heq|k c Hk Heq|k c code Hk Hc Heq|Hne Heq|Heq];
    try discriminate;
    destruct k as [|[|[|k]]]; simpl in *; try discriminate; try lia.
Qed.

(** ** Step behaviours *)

Section BehaviourFacts.

Variables RAIN MERULA : string.

Local Ltac chain_case :=
  match goal with
  | |- behaved ?w (runner_run_chain ?c ?w0) => by apply (behaved_chain w c w0)
  end.


Lemma call_func_behaved (f : StepFunc) (w : Win) :
  ∃ w', call_func RAIN MERULA f w = Returned w' ∧ behaved w w'.
Proof.
  eexists. split; [reflexivity|].
  destruct f; cbv beta iota zeta delta
    [step_a9_teth_get_shc_pre step_a9_teth_restore step_a9_teth_get_shc_post
     step_a9_teth_get_pte step_a9_teth_boot step_a10_teth_restore step_a10_teth_boot
     step_a9_unteth_get_shc step_a9_unteth_restore step_a10_unteth_restore];
    repeat case_match; first [apply behaved_missing | chain_case].
Qed.




Lemma foldl_on_sig_frame (sigs : list Sig) (w : Win) :
  step_manager (foldl (λ w s, on_sig s w) w sigs) = step_manager w ∧
  warnings (foldl (λ w s, on_sig s w) w sigs) = warnings w ∧
  is_executing (foldl (λ w s, on_sig s w) w sigs) = is_executing w ∧
  runner (foldl (λ w s, on_sig s w) w sigs) = runner w.
Proof.
  revert w. induction sigs as [|s sigs IH]; intros w; [done|].
  simpl. destruct (IH (on_sig s w)) as (-> & -> & -> & ->). by destruct s.
Qed.

Lemma runner_run_chain_frame (cmds : list string) (w : Win) :
  step_manager (runner_run_chain cmds w) = step_manager w ∧
  warnings (runner_run_chain cmds w) = warnings w ∧
  is_executing (runner_run_chain cmds w) = is_executing w.
Proof.
  unfold runner_run_chain. destruct (run_chain cmds (runner w)) as [r sigs].
  destruct (foldl_on_sig_frame sigs (set_runner r w)) as (-> & -> & -> & _). done.
Qed.

(** A busy runner takes the queue and the connection, and starts nothing. *)
Lemma runner_run_chain_busy (cmds : list string) (w : Win) :
  is_running (runner w) = true →
  spawned (runner_run_chain cmds w) = spawned w ∧
  is_running (runner (runner_run_chain cmds w)) = true.
Proof.
  intros Hr. unfold runner_run_chain, run_chain.
  destruct cmds as [|c q]; simpl; [done|].
  unfold run. simpl. rewrite Hr. done.
Qed.

Lemma complete_step_frame (index : Z) (b : bool) (w : Win) :
  runner (complete_step index b w) = runner w ∧
  spawned (complete_step index b w) = spawned w ∧
  warnings (complete_step index b w) = warnings w ∧
  is_executing (complete_step index b w) = is_executing w ∧
  pdir (complete_step index b w) = pdir w.
Proof.
  unfold complete_step. by destruct (sm_complete_step index b (step_manager w)).
Qed.

Lemma complete_step_steps (index : Z) (b : bool) (w : Win) :
  steps (step_manager (complete_step index b w))
  = if in_range index (step_manager w)
    then alter (set_status (if b then SUCCESS else FAILED)) (Z.to_nat index)
           (steps (step_manager w))
    else steps (step_manager w).
Proof.
  unfold complete_step, sm_complete_step. by destruct (in_range index (step_manager w)).
Qed.

Lemma start_step_frame (index : Z) (w : Win) :
  runner (start_step index w) = runner w ∧
  spawned (start_step index w) = spawned w ∧
  warnings (start_step index w) = warnings w ∧
  state (start_step index w) = state w ∧
  pdir (start_step index w) = pdir w.
Proof.
  unfold start_step. by destruct (sm_start_step index (step_manager w)).
Qed.

Lemma in_range_of_nat (i : nat) (m : StepManager) :
  (i < length (steps m))%nat → in_range (Z.of_nat i) m = true.
Proof.
  intros H. unfold in_range.
  rewrite !bool_decide_eq_true_2; [done|lia|lia].
Qed.

Lemma start_step_manager (i : nat) (w : Win) :
  (i < length (steps (step_manager w)))%nat →
  step_manager (start_step (Z.of_nat i) w)
  = {| steps := alter (set_status RUNNING) i (steps (step_manager w));
       current_step := Z.of_nat i |}.
Proof.
  intros H. unfold start_step, sm_start_step.
  rewrite (in_range_of_nat i _ H), Nat2Z.id. done.
Qed.

Lemma fail_missing_frame (text : string) (w : Win) :
  runner (fail_missing text w) = runner w ∧
  spawned (fail_missing text w) = spawned w ∧
  warnings (fail_missing text w) = warnings w ++ [("Missing", text)] ∧
  is_executing (fail_missing text w) = false ∧
  steps (step_manager (fail_missing text w))
  = if in_range (current_step (step_manager w)) (step_manager w)
    then alter (set_status FAILED) (Z.to_nat (current_step (step_manager w)))
           (steps (step_manager w))
    else steps (step_manager w).
Proof.
  unfold fail_missing.
  cbn [runner spawned warnings is_executing step_manager set_is_executing].
  destruct (complete_step_frame (current_step (step_manager w)) false
              (warning "Missing" text w)) as (Hr & Hs & Hw & _).
  repeat split; try done.
  by rewrite complete_step_steps.
Qed.

Lemma mkdir_lookup (now : Z) (name : string) (d d' : gmap string entry) :
  mkdir now name d = Some d' →
  (∀ n, n ≠ name → d' !! n = d !! n) ∧ is_Some (d' !! name).
Proof.
  unfold mkdir. intros H.
  destruct (d !! name) as [[f|t cs]|] eqn:E; [done| |]; injection H as <-.
  - split; [done|]. rewrite E. eauto.
  - split; [intros n Hn; by rewrite lookup_insert_ne|].
    rewrite lookup_insert_eq. eauto.
Qed.


Lemma has_entry_true (d : gmap string entry) (pat : string) :
  has_entry d pat = true ↔ ∃ n, is_Some (d !! n) ∧ glob_match pat n = true.
Proof.
  unfold has_entry, glob. split.
  - destruct (filter _ _) as [|[n e] l] eqn:E; [done|]. intros _.
    assert ((n, e) ∈ filter (λ ne : string * entry, glob_match pat ne.1 = true)
                       (map_to_list d)) as Hin by (rewrite E; apply list_elem_of_here).
    apply list_elem_of_filter in Hin as [Hm Hin]. apply elem_of_map_to_list in Hin.
    exists n. eauto.
  - intros (n & [e He] & Hm).
    assert ((n, e) ∈ filter (λ ne : string * entry, glob_match pat ne.1 = true)
                       (map_to_list d)) as Hin.
    { apply list_elem_of_filter. split; [done|]. by apply elem_of_map_to_list. }
    destruct (filter _ _); [by apply elem_of_nil in Hin|done].
Qed.

(** The working directories are no artifact and match no pattern a
    precondition looks for: making them changes no precondition. *)
Lemma make_workdirs_spec (w w' : Win) :
  make_workdirs w = Some w' →
  (∀ f, precondition_met f w' = precondition_met f w) ∧
  runner w' = runner w ∧ spawned w' = spawned w ∧ warnings w' = warnings w ∧
  step_manager w' = step_manager w.
Proof.
  unfold make_workdirs. destruct (root_dir (state w)) as [r|] eqn:Hr;
    [|intros [= <-]; done].
  destruct (mkdir (clock w) "block" (pdir w)) as [d1|] eqn:E1; [|done]. simpl.
  destruct (mkdir (clock w) "image4" d1) as [d2|] eqn:E2; [|done]. simpl.
  intros [= <-]. split; [|done].
  destruct (mkdir_lookup _ _ _ _ E1) as [H1 H1'], (mkdir_lookup _ _ _ _ E2) as [H2 H2'].
  assert (Hl : ∀ n, n ≠ "block" → n ≠ "image4" → d2 !! n = pdir w !! n).
  { intros n ? ?. rewrite H2, H1; done. }
  assert (Hsome : ∀ n, is_Some (pdir w !! n) → is_Some (d2 !! n)).
  { intros n Hn. destruct (decide (n = "image4")) as [->|]; [done|].
    rewrite H2 by done. destruct (decide (n = "block")) as [->|]; [done|].
    by rewrite H1. }
  assert (He : ∀ n, n ≠ "block" → n ≠ "image4" → exists_ d2 n = exists_ (pdir w) n).
  { intros n ? ?. unfold exists_. by rewrite Hl. }
  assert (Hg : ∀ pat, glob_match pat "block" = false → glob_match pat "image4" = false →
                has_entry d2 pat = has_entry (pdir w) pat).
  { intros pat Hb Hi. apply eq_true_iff_eq. rewrite !has_entry_true.
    split; intros (n & Hn & Hm); exists n; (split; [|done]).
    - rewrite <- Hl; [done|congruence|congruence].
    - by apply Hsome. }
  intros f. unfold precondition_met. cbn [state pdir set_pdir]. f_equal.
  destruct f; rewrite ?He, ?Hg by done; reflexivity.
Qed.




(** C2, as amended.  While a process is live [run] returns [False] and
    starts nothing, so [execute_step], invoked while the process of another
    step runs, starts no second process and the runner stays busy with the
    live one.  The invocation is not rejected: the step it names becomes
    running (or failed, on a missing precondition), every other step keeps
    its status. *)
Theorem execute_step_while_running (w w' : Win) (j : nat) :
  is_running (runner w) = true →
  execute_step RAIN MERULA j w = Some w' →
  (∀ c, run c (runner w) = (runner w, false, [])) ∧
  spawned w' = spawned w ∧
  is_running (runner w') = true ∧
  (∀ i, i ≠ j → statuses w' !! i = statuses w !! i) ∧
  (∀ st, steps (step_manager w) !! j = Some st →
         statuses w' !! j = Some RUNNING ∨ statuses w' !! j = Some FAILED).
Proof.
  intros Hbusy Hex. split; [intros c; unfold run; by rewrite Hbusy|].
  unfold execute_step in Hex.
  destruct (steps (step_manager w) !! j) as [st|] eqn:Hst.
  2:{ injection Hex as <-. repeat split; try done. }
  assert (Hlen : (j < length (steps (step_manager w)))%nat) by by eapply lookup_lt_Some.
  set (w3 := set_is_executing true _) in Hex.
  destruct (make_workdirs w3) as [w4|] eqn:Hw4; [|done]. cbn [mbind option_bind] in Hex.
  destruct (make_workdirs_spec _ _ Hw4) as (_ & Hr & Hs & _ & Hm).
  destruct (start_step_frame (Z.of_nat j) w) as (Hr0 & Hs0 & _).
  assert (Hr4 : runner w4 = runner w).
  { rewrite Hr. unfold w3. cbn [runner set_is_executing log_system]. done. }
  assert (Hs4 : spawned w4 = spawned w).
  { rewrite Hs. unfold w3. cbn [spawned set_is_executing log_system]. done. }
  assert (Hm4 : step_manager w4
            = {| steps := alter (set_status RUNNING) j (steps (step_manager w));
                 current_step := Z.of_nat j |}).
  { rewrite Hm. unfold w3. cbn [step_manager set_is_executing log_system].
    by apply start_step_manager. }
  destruct (call_func_behaved (func st) w4) as (w5 & Hcall & Hbeh).
  rewrite Hcall in Hex. injection Hex as <-.
  assert (Hstat : ∀ i s,
            (status <$> alter (set_status s) j (steps (step_manager w))) !! i
            = if decide (i = j) then Some s else statuses w !! i).
  { intros i s. rewrite list_lookup_fmap. case_decide as Hij.
    - subst. by rewrite list_lookup_alter_eq, Hst.
    - rewrite list_lookup_alter_ne by done. unfold statuses. by rewrite list_lookup_fmap. }
  destruct Hbeh as [text|cmds w0 Hr0' Hm0 Hs0' _ _].
  - destruct (fail_missing_frame text w4) as (Hr' & Hs' & _ & _ & Hst').
    assert (Hst'' : statuses (fail_missing text w4)
              = status <$> alter (set_status FAILED) j (steps (step_manager w))).
    { unfold statuses. rewrite Hst', Hm4. cbn [steps current_step].
      rewrite in_range_of_nat by (cbn [steps]; by rewrite length_alter).
      rewrite Nat2Z.id. f_equal.
      apply list_eq. intros i. destruct (decide (i = j)) as [->|].
      - rewrite !list_lookup_alter_eq. by rewrite Hst.
      - by rewrite !list_lookup_alter_ne. }
    repeat split.
    + congruence.
    + congruence.
    + intros i Hi. rewrite Hst'', (Hstat i FAILED). by rewrite decide_False.
    + intros st' _. right. rewrite Hst'', (Hstat j FAILED). by rewrite decide_True.
  - assert (is_running (runner w0) = true) as Hbusy0 by congruence.
    destruct (runner_run_chain_busy cmds w0 Hbusy0) as [Hsp Hrun].
    destruct (runner_run_chain_frame cmds w0) as (Hsm & _).
    assert (Hst'' : statuses (runner_run_chain cmds w0)
              = status <$> alter (set_status RUNNING) j (steps (step_manager w))).
    { unfold statuses. by rewrite Hsm, Hm0, Hm4. }
    repeat split.
    + congruence.
    + done.
    + intros i Hi. rewrite Hst'', (Hstat i RUNNING). by rewrite decide_False.
    + intros st' _. left. rewrite Hst'', (Hstat j RUNNING). by rewrite decide_True.
Qed.

End BehaviourFacts.

Lemma execute_step_while_running_witness :
  (∀ c, run c (runner busy_window) = (runner busy_window, false, [])) ∧
  spawned busy_twice = spawned busy_window ∧
  is_running (runner busy_twice) = true ∧
  (∀ i, i ≠ 2%nat → statuses busy_twice !! i = statuses busy_window !! i) ∧
  (∀ st, steps (step_manager busy_window) !! 2%nat = Some st →
         statuses busy_twice !! 2%nat = Some RUNNING ∨
         statuses busy_twice !! 2%nat = Some FAILED).
Proof.
  apply (execute_step_while_running "turdusra1n" "turdus_merula" busy_window busy_twice 2);
    vm_compute; reflexivity.
Defined.

(** C2 fails as stated: [execute_step] does not look at [is_executing].
    Clicked while step 1 is running, step 3 is marked running as well. *)
Lemma two_steps_running :
  is_executing busy_window = true ∧
  statuses busy_window = [RUNNING; PENDING; PENDING; PENDING; PENDING] ∧
  execute_step "turdusra1n" "turdus_merula" 2 busy_window = Some busy_twice ∧
  statuses busy_twice = [RUNNING; PENDING; RUNNING; PENDING; PENDING].
Proof.
  split; [|split; [|split]]; vm_compute; reflexivity.
Qed.


(** ** Flattening the working subdirectories *)



















